(** * RISC-V instruction field helpers (insn.h)

    A shallow embedding of the generated header [insn.h]: the extract
    and insert helpers for the [imm12], [rd] and [rs1] fields, the
    [addi] recogniser and the [addi] encoder, followed by the properties
    the specification states about them and by further laws of how the
    helpers compose.

    The three update helpers are not embedded.  Their first statement,
    [*insn &= ~(GENMASK((31, 20)));] (and the same with [(11, 7)] and
    [(19, 15)]), hands the two-parameter macro [GENMASK] the single
    argument [(31, 20)]: it has no expansion, and so the source fixes no
    mask that an update would clear.  The second statement of each is a
    call of the matching insert helper, which is embedded.

    Machine integers are mathematical integers with the wrap-around of
    each C operation written out.  The helpers that take a [u32 *] run
    in a small state-and-error monad over a store of 32-bit words, so
    that what a call writes, and where, is part of the model. *)

From Stdlib Require Import ZArith Lia Bool.
From stdpp Require Import base option gmap.

Local Open Scope Z_scope.

(** ** Machine integers *)

Module Mach.

(** Values of the C type [u32]. *)
Definition is_u32 (x : Z) : Prop := 0 <= x < 2 ^ 32.

(** Conversion of an integer value to [u32] (assignment, return). *)
Definition to_u32 (x : Z) : Z := x mod 2 ^ 32.

Section UnsignedLong.

(** Width of [unsigned long]: 32 on rv32, 64 on rv64. *)
Variable BITS_PER_LONG : Z.

Definition to_ulong (x : Z) : Z := x mod 2 ^ BITS_PER_LONG.

(** [~0UL] *)
Definition ulong_max : Z := Z.ones BITS_PER_LONG.

(** [x << s] at type [unsigned long] *)
Definition shl_ulong (x s : Z) : Z := to_ulong (Z.shiftl x s).

(** Modelled from the spec: the macro [GENMASK(h, l)] comes from
    [<linux/bits.h>], which is not part of the source, and which neither
    the source nor the specification spells out.  It is taken to be the
    kernel's macro, the [unsigned long] with exactly bits [h] down to
    [l] set, computed as the kernel computes it,
    [(~0UL << l) & (~0UL >> (BITS_PER_LONG - 1 - h))]; this gives
    [0xFFF] for [GENMASK(11, 0)] and [0x1F] for [GENMASK(4, 0)]. *)
Definition GENMASK (h l : Z) : Z :=
  Z.land (shl_ulong ulong_max l)
         (Z.shiftr ulong_max (BITS_PER_LONG - 1 - h)).

End UnsignedLong.

End Mach.

Import Mach.

(** ** The store *)

(** A [u32 *] is an address; the store maps the addresses that may be
    accessed to the word they hold.  Dereferencing any other address is
    a fault.  The store keeps one word per address and no bytes: it
    describes pointers to [u32] objects, and says nothing of how a write
    through a misaligned address spills into the neighbouring words. *)

Module Store.

Definition M (A : Type) : Type := gmap Z Z -> option (A * gmap Z Z).

Definition ret {A} (a : A) : M A := fun h => Some (a, h).

Definition bind {A B} (c : M A) (k : A -> M B) : M B :=
  fun h => match c h with
           | Some (a, h') => k a h'
           | None => None
           end.

(** [*p] as an rvalue *)
Definition load (p : Z) : M Z :=
  fun h => match h !! p with
           | Some w => Some (w, h)
           | None => None
           end.

(** [*p = w] *)
Definition store (p w : Z) : M unit :=
  fun h => match h !! p with
           | Some _ => Some (tt, <[p := w]> h)
           | None => None
           end.

(** [*p |= e] on a [u32] object *)
Definition or_assign (p e : Z) : M unit :=
  bind (load p) (fun w => store p (to_u32 (Z.lor w e))).

End Store.

Import Store.

Notation "x <- c1 ;; c2" := (bind c1 (fun x => c2))
  (at level 100, c1 at next level, right associativity).
Notation "c1 ;; c2" := (bind c1 (fun _ => c2))
  (at level 100, right associativity).

(** ** Bit fields of a word

    The three fields are instances of one pattern: a field of [n] bits
    whose lowest bit is bit [s] of the word.  These operations are the
    vocabulary of the proofs; the functions of the header are defined
    from the source below and then shown to compute them. *)

Module Field.

(** Reading the field. *)
Definition get (s n w : Z) : Z := Z.land (Z.shiftr w s) (Z.ones n).

(** Or-ing the low [n] bits of [v] into the field. *)
Definition merge (s n w v : Z) : Z :=
  Z.lor w (Z.shiftl (Z.land v (Z.ones n)) s).


End Field.

(** ** The header *)

Section Insn.

Variable BITS_PER_LONG : Z.

Local Abbreviation GENMASK := (GENMASK BITS_PER_LONG).
Local Abbreviation shl := (shl_ulong BITS_PER_LONG).

(** [#define RV_X(X, s, mask)  (((X) >> (s)) & (mask))] *)
Definition RV_X (X s mask : Z) : Z := Z.land (Z.shiftr X s) mask.

(** *** imm12, bits [[31:20]]

    In the source the [return] statement of each of the three
    extractors lacks its closing [;]; the returned expression is
    embedded as it is written. *)

Definition riscv_extract_imm12 (insn : Z) : Z :=
  to_u32 (shl (RV_X insn 20 (GENMASK 11 0)) 0).

Definition riscv_insert_imm12 (insn : Z) (value : Z) : M unit :=
  or_assign insn (shl (RV_X value 0 (GENMASK 11 0)) 20).

(** *** rd, bits [[11:7]] *)

Definition riscv_extract_rd (insn : Z) : Z :=
  to_u32 (shl (RV_X insn 7 (GENMASK 4 0)) 0).

Definition riscv_insert_rd (insn : Z) (value : Z) : M unit :=
  or_assign insn (shl (RV_X value 0 (GENMASK 4 0)) 7).

(** *** rs1, bits [[19:15]] *)

Definition riscv_extract_rs1 (insn : Z) : Z :=
  to_u32 (shl (RV_X insn 15 (GENMASK 4 0)) 0).

Definition riscv_insert_rs1 (insn : Z) (value : Z) : M unit :=
  or_assign insn (shl (RV_X value 0 (GENMASK 4 0)) 15).

(** *** addi *)

Definition riscv_is_addi (insn : Z) : bool :=
  Z.land insn 0x707f =? 0x13.

(** The local [insn] is a [u32] initialised to
    [0b00000000000000000000000000010011], that is [0x13]; the three
    calls pass its value, not its address, as the [u32 *] argument.
    Each call therefore updates the word at address [0x13], and the
    local keeps its initial value. *)
Definition riscv_insn_addi (rd rs1 imm12 : Z) : M Z :=
  let insn := 0x13 in
  riscv_insert_rd insn rd ;;
  riscv_insert_rs1 insn rs1 ;;
  riscv_insert_imm12 insn imm12 ;;
  ret insn.

End Insn.

(** ** Bits of the field operations *)

Module FieldFacts.

Import Field.

Lemma testbit_ones_lt n i :
  0 <= n -> 0 <= i -> Z.testbit (Z.ones n) i = (i <? n).
Proof.
  intros Hn Hi. rewrite Z.testbit_ones by lia.
  destruct (Z.leb_spec 0 i); [reflexivity | lia].
Qed.

Lemma testbit_shiftl_ge a s i :
  0 <= s -> 0 <= i ->
  Z.testbit (Z.shiftl a s) i = (s <=? i) && Z.testbit a (i - s).
Proof.
  intros Hs Hi. rewrite Z.shiftl_spec by lia.
  destruct (Z.leb_spec s i); [reflexivity |].
  apply Z.testbit_neg_r. lia.
Qed.

(** Bit [i] of each of the three operations. *)

Lemma testbit_get s n w i :
  0 <= s -> 0 <= n -> 0 <= i ->
  Z.testbit (get s n w) i = Z.testbit w (i + s) && (i <? n).
Proof.
  intros Hs Hn Hi. unfold get.
  rewrite Z.land_spec, Z.shiftr_spec, testbit_ones_lt by lia.
  reflexivity.
Qed.

Lemma testbit_merge s n w v i :
  0 <= s -> 0 <= n -> 0 <= i ->
  Z.testbit (merge s n w v) i =
  Z.testbit w i || ((s <=? i) && (i <? s + n) && Z.testbit v (i - s)).
Proof.
  intros Hs Hn Hi. unfold merge.
  rewrite Z.lor_spec, testbit_shiftl_ge, Z.land_spec by lia.
  destruct (Z.leb_spec s i); simpl; [| reflexivity].
  rewrite testbit_ones_lt by lia.
  replace (i - s <? n) with (i <? s + n)
    by (destruct (Z.ltb_spec i (s + n)), (Z.ltb_spec (i - s) n);
        reflexivity || lia).
  destruct (i <? s + n), (Z.testbit v (i - s)); reflexivity.
Qed.

(** Case analysis on the comparisons and on the bits left in a goal
    between boolean expressions. *)
Ltac split_cmp :=
  repeat match goal with
         | |- context [?a <=? ?b] => destruct (Z.leb_spec a b)
         | |- context [?a <? ?b] => destruct (Z.ltb_spec a b)
         end.

Ltac split_bits :=
  repeat match goal with
         | |- context [Z.testbit ?a ?b] => destruct (Z.testbit a b)
         end.

Ltac bits_of_fields :=
  repeat first
    [ rewrite testbit_get by lia
    | rewrite testbit_merge by lia
    | rewrite testbit_ones_lt by lia
    | rewrite Z.lor_spec
    | rewrite Z.land_spec
    | rewrite Z.bits_0
    | rewrite Z.add_simpl_r ].

Ltac field_eq :=
  apply Z.bits_inj'; intros ? ?; bits_of_fields;
  split_cmp; simpl; try lia; split_bits; simpl; reflexivity || lia.

Section Laws.

Variables s n : Z.
Hypothesis s_nonneg : 0 <= s.
Hypothesis n_nonneg : 0 <= n.

Lemma get_range w : 0 <= get s n w < 2 ^ n.
Proof.
  unfold get. rewrite Z.land_ones by lia.
  apply Z.mod_pos_bound. apply Z.pow_pos_nonneg; lia.
Qed.

Lemma get_merge w v :
  get s n (merge s n w v) = Z.lor (get s n w) (Z.land v (Z.ones n)).
Proof. field_eq. Qed.


Lemma merge_merge_same w v :
  merge s n (merge s n w v) v = merge s n w v.
Proof. field_eq. Qed.

End Laws.

(** A [u32] is an integer with no bit set from bit 32 up. *)
Lemma is_u32_testbit x :
  is_u32 x <-> (forall i, 32 <= i -> Z.testbit x i = false).
Proof.
  unfold is_u32. split.
  - intros Hx i Hi. rewrite <- (Z.mod_small x (2 ^ 32)) by exact Hx.
    apply Z.mod_pow2_bits_high. lia.
  - intros Hhigh.
    assert (Hmod : x = x mod 2 ^ 32).
    { apply Z.bits_inj'. intros i Hi.
      rewrite Z.testbit_mod_pow2 by lia.
      destruct (Z.ltb_spec i 32); simpl; [reflexivity |].
      apply Hhigh. lia. }
    rewrite Hmod. apply Z.mod_pos_bound. lia.
Qed.

Lemma to_u32_id x : is_u32 x -> to_u32 x = x.
Proof. intros Hx. apply Z.mod_small. exact Hx. Qed.

Lemma is_u32_merge s n w v :
  0 <= s -> 0 <= n -> s + n <= 32 ->
  is_u32 w -> is_u32 (merge s n w v).
Proof.
  intros Hs Hn Hsn Hw. apply is_u32_testbit. intros i Hi.
  rewrite testbit_merge by lia.
  rewrite (proj1 (is_u32_testbit w) Hw i Hi).
  split_cmp; simpl; reflexivity || lia.
Qed.


End FieldFacts.

(** ** Running the store operations *)

Module StoreFacts.

Lemma or_assign_run (h : gmap Z Z) p e w :
  h !! p = Some w ->
  or_assign p e h = Some (tt, <[p := to_u32 (Z.lor w e)]> h).
Proof.
  intros Hp. unfold or_assign, bind, load, store. rewrite Hp. simpl.
  rewrite Hp. reflexivity.
Qed.

Lemma or_assign_fault (h : gmap Z Z) p e :
  h !! p = None -> or_assign p e h = None.
Proof.
  intros Hp. unfold or_assign, bind, load. rewrite Hp. reflexivity.
Qed.

Lemma bind_run {A B} (c : M A) (k : A -> M B) h a h' :
  c h = Some (a, h') -> bind c k h = k a h'.
Proof. intros Hc. unfold bind. rewrite Hc. reflexivity. Qed.

End StoreFacts.

(** ** The header in terms of the field operations *)

Module InsnFacts.

Import Field FieldFacts StoreFacts.

Section Width.

Variable BITS_PER_LONG : Z.
Hypothesis long_width : BITS_PER_LONG = 32 \/ BITS_PER_LONG = 64.

Local Abbreviation GENMASK := (GENMASK BITS_PER_LONG).
Local Abbreviation shl := (shl_ulong BITS_PER_LONG).

Lemma testbit_to_ulong x i :
  Z.testbit (to_ulong BITS_PER_LONG x) i =
  (i <? BITS_PER_LONG) && Z.testbit x i.
Proof. unfold to_ulong. apply Z.testbit_mod_pow2. lia. Qed.

Lemma testbit_to_u32 x i :
  Z.testbit (to_u32 x) i = (i <? 32) && Z.testbit x i.
Proof. unfold to_u32. apply Z.testbit_mod_pow2. lia. Qed.

(** [GENMASK(h, l)] within the low 32 bits: bits [h] down to [l]. *)
Lemma testbit_GENMASK h l i :
  0 <= l -> l <= h -> h < 32 -> 0 <= i ->
  Z.testbit (GENMASK h l) i = (l <=? i) && (i <=? h).
Proof.
  intros Hl Hlh Hh Hi. unfold Mach.GENMASK, shl_ulong, ulong_max.
  rewrite Z.land_spec, testbit_to_ulong, testbit_shiftl_ge by lia.
  rewrite Z.shiftr_spec by lia.
  destruct (Z.leb_spec l i).
  - rewrite !testbit_ones_lt by lia.
    split_cmp; simpl; reflexivity || lia.
  - rewrite andb_false_r. reflexivity.
Qed.

Lemma GENMASK_field s n :
  0 <= s -> 0 < n -> s + n <= 32 ->
  GENMASK (s + n - 1) s = Z.shiftl (Z.ones n) s.
Proof.
  intros Hs Hn Hsn. apply Z.bits_inj'. intros i Hi.
  rewrite testbit_GENMASK, testbit_shiftl_ge by lia.
  destruct (Z.leb_spec s i); simpl; [| reflexivity].
  rewrite testbit_ones_lt by lia.
  split_cmp; reflexivity || lia.
Qed.

Lemma GENMASK_low n :
  0 < n -> n <= 32 -> GENMASK (n - 1) 0 = Z.ones n.
Proof.
  intros Hn Hn32. replace (n - 1) with (0 + n - 1) by lia.
  rewrite GENMASK_field by lia. apply Z.shiftl_0_r.
Qed.

Section OneField.

Variables s n : Z.
Hypothesis s_nonneg : 0 <= s.
Hypothesis n_pos : 0 < n.
Hypothesis fits : s + n <= 32.

(** [RV_X(insn, s, GENMASK(n-1, 0)) << 0], returned as [u32] *)
Lemma extract_get insn :
  to_u32 (shl (RV_X insn s (GENMASK (n - 1) 0)) 0) = get s n insn.
Proof.
  rewrite GENMASK_low by lia. unfold RV_X. fold (get s n insn).
  unfold shl_ulong, to_ulong, to_u32. rewrite Z.shiftl_0_r.
  pose proof (get_range s n (Z.lt_le_incl _ _ n_pos) insn) as Hr.
  assert (2 ^ n <= 2 ^ 32) by (apply Z.pow_le_mono_r; lia).
  assert (2 ^ 32 <= 2 ^ BITS_PER_LONG)
    by (apply Z.pow_le_mono_r; lia).
  rewrite (Z.mod_small (get s n insn) (2 ^ BITS_PER_LONG)) by lia.
  apply Z.mod_small. lia.
Qed.

(** [*insn |= RV_X(value, 0, GENMASK(n-1, 0)) << s] *)
Lemma or_merge w v :
  is_u32 w ->
  to_u32 (Z.lor w (shl (RV_X v 0 (GENMASK (n - 1) 0)) s)) =
  merge s n w v.
Proof.
  intros Hw. rewrite GENMASK_low by lia.
  unfold RV_X. rewrite Z.shiftr_0_r.
  apply Z.bits_inj'. intros i Hi.
  rewrite testbit_to_u32, Z.lor_spec. unfold shl_ulong.
  rewrite testbit_to_ulong, testbit_shiftl_ge, Z.land_spec by lia.
  rewrite testbit_merge by lia.
  destruct (Z.ltb_spec i 32); simpl.
  - destruct (Z.leb_spec s i); simpl.
    + rewrite testbit_ones_lt by lia.
      split_cmp; simpl; try lia; split_bits; reflexivity.
    + rewrite andb_false_r. reflexivity.
  - rewrite (proj1 (is_u32_testbit w) Hw i) by lia.
    split_cmp; simpl; reflexivity || lia.
Qed.

Lemma insert_run (h : gmap Z Z) p w v :
  h !! p = Some w -> is_u32 w ->
  or_assign p (shl (RV_X v 0 (GENMASK (n - 1) 0)) s) h =
  Some (tt, <[p := merge s n w v]> h).
Proof.
  intros Hp Hw. rewrite (or_assign_run h p _ w Hp).
  rewrite or_merge by exact Hw. reflexivity.
Qed.

End OneField.

(** The three instances of the header. *)

Lemma riscv_extract_imm12_get insn :
  riscv_extract_imm12 BITS_PER_LONG insn = get 20 12 insn.
Proof. apply (extract_get 20 12); lia. Qed.

Lemma riscv_extract_rd_get insn :
  riscv_extract_rd BITS_PER_LONG insn = get 7 5 insn.
Proof. apply (extract_get 7 5); lia. Qed.

Lemma riscv_extract_rs1_get insn :
  riscv_extract_rs1 BITS_PER_LONG insn = get 15 5 insn.
Proof. apply (extract_get 15 5); lia. Qed.

Lemma riscv_insert_imm12_run (h : gmap Z Z) p w v :
  h !! p = Some w -> is_u32 w ->
  riscv_insert_imm12 BITS_PER_LONG p v h =
  Some (tt, <[p := merge 20 12 w v]> h).
Proof. apply (insert_run 20 12); lia. Qed.

Lemma riscv_insert_rd_run (h : gmap Z Z) p w v :
  h !! p = Some w -> is_u32 w ->
  riscv_insert_rd BITS_PER_LONG p v h =
  Some (tt, <[p := merge 7 5 w v]> h).
Proof. apply (insert_run 7 5); lia. Qed.

Lemma riscv_insert_rs1_run (h : gmap Z Z) p w v :
  h !! p = Some w -> is_u32 w ->
  riscv_insert_rs1 BITS_PER_LONG p v h =
  Some (tt, <[p := merge 15 5 w v]> h).
Proof. apply (insert_run 15 5); lia. Qed.

End Width.

(** The encoder returns its initial word, whatever the store. *)
Lemma riscv_insn_addi_result B rd rs1 imm12 (h h' : gmap Z Z) r :
  riscv_insn_addi B rd rs1 imm12 h = Some (r, h') -> r = 0x13.
Proof.
  unfold riscv_insn_addi, bind, ret.
  destruct (riscv_insert_rd B 19 rd h) as [[[] h1] |]; [| discriminate].
  destruct (riscv_insert_rs1 B 19 rs1 h1) as [[[] h2] |]; [| discriminate].
  destruct (riscv_insert_imm12 B 19 imm12 h2) as [[[] h3] |];
    [| discriminate].
  intros Hr. injection Hr as Hr _. symmetry. exact Hr.
Qed.

Lemma riscv_insn_addi_faults B rd rs1 imm12 (h : gmap Z Z) :
  h !! 0x13 = None -> riscv_insn_addi B rd rs1 imm12 h = None.
Proof.
  intros Hn. unfold riscv_insn_addi, riscv_insert_rd, bind.
  rewrite or_assign_fault by exact Hn. reflexivity.
Qed.

End InsnFacts.

(** ** The header on concrete words

    [0x00A00513] is [addi a0, zero, 10]; [0x00A01513] differs from it in
    funct3 only. *)

Example GENMASK_imm12_rv64 : GENMASK 64 11 0 = 0xFFF.
Proof. reflexivity. Qed.

Example GENMASK_imm12_field_rv32 : GENMASK 32 31 20 = 0xFFF00000.
Proof. reflexivity. Qed.

Example extract_fields_of_addi :
  riscv_extract_imm12 64 0x00A00513 = 10 /\
  riscv_extract_rd 32 0x00A00513 = 10 /\
  riscv_extract_rs1 64 0x00A00513 = 0.
Proof. repeat split; reflexivity. Qed.

Example insert_rd_unmapped : riscv_insert_rd 64 8 11 ∅ = None.
Proof. vm_compute. reflexivity. Qed.

Example is_addi_examples :
  riscv_is_addi 0x00A00513 = true /\ riscv_is_addi 0x00A01513 = false.
Proof. split; reflexivity. Qed.

(** ** Properties of the header *)

Import Field FieldFacts StoreFacts InsnFacts.

(** C1 (not met by the code): the first thing the encoder does is to
    dereference its local [insn], the value [0x13], as a [u32 *].  Where
    that address cannot be accessed the call faults and returns no
    instruction, whatever [rd], [rs1] and [imm12] are. *)
Theorem riscv_insn_addi_faults_on_empty_store B rd rs1 imm12 :
  riscv_insn_addi B rd rs1 imm12 ∅ = None.
Proof. apply riscv_insn_addi_faults. apply lookup_empty. Qed.

(** C2 (not met by the code): the encoder hands the value of its local
    [insn] to the insert helpers where they expect its address, so the
    word it returns is the bare [addi] opcode.  For [rd = 1], [rs1 = 2],
    [imm12 = 3] the returned word is [0x13], and all three of its fields
    decode to [0], not to [1], [2] and [3]. *)
Theorem riscv_insn_addi_drops_fields :
  riscv_insn_addi 64 1 2 3 {[ 0x13 := 0 ]} =
    Some (0x13, {[ 0x13 := 0x00310080 ]}) /\
  riscv_extract_rd 64 0x13 = 0 /\ Z.land 1 0x1F = 1 /\
  riscv_extract_rs1 64 0x13 = 0 /\ Z.land 2 0x1F = 2 /\
  riscv_extract_imm12 64 0x13 = 0 /\ Z.land 3 0xFFF = 3.
Proof. vm_compute. repeat split; reflexivity. Qed.

(** C8: [riscv_is_addi insn] holds exactly when [insn & 0x707F] is
    [0x13], that is when opcode bits [[6:0]] are [0x13] and funct3 bits
    [[14:12]] are [0]; replacing every other bit of [insn] by the bits of
    an arbitrary word [x] does not change the answer. *)
Theorem riscv_is_addi_spec insn :
  (riscv_is_addi insn = true <-> Z.land insn 0x707F = 0x13) /\
  (riscv_is_addi insn = true <->
   Z.land insn 0x7F = 0x13 /\ Z.land (Z.shiftr insn 12) 0x7 = 0) /\
  (forall x,
      riscv_is_addi (Z.lor (Z.land insn 0x707F) (Z.ldiff x 0x707F)) =
      riscv_is_addi insn).
Proof.
  unfold riscv_is_addi. split; [apply Z.eqb_eq |]. split.
  - rewrite Z.eqb_eq.
    assert (Hhi : Z.land insn 0x7000 =
                  Z.shiftl (Z.land (Z.shiftr insn 12) 0x7) 12).
    { apply Z.bits_inj'. intros i Hi.
      replace 0x7000 with (Z.shiftl 0x7 12) by reflexivity.
      rewrite Z.land_spec, !testbit_shiftl_ge, Z.land_spec by lia.
      destruct (Z.leb_spec 12 i); simpl.
      - rewrite Z.shiftr_spec by lia.
        replace (i - 12 + 12) with i by lia. reflexivity.
      - apply andb_false_r. }
    split.
    + intros H. split.
      * replace 0x7F with (Z.land 0x707F 0x7F) by reflexivity.
        rewrite Z.land_assoc, H. reflexivity.
      * apply (proj1 (Z.shiftl_eq_0_iff _ 12 ltac:(lia))).
        rewrite <- Hhi.
        replace 0x7000 with (Z.land 0x707F 0x7000) by reflexivity.
        rewrite Z.land_assoc, H. reflexivity.
    + intros [Hop Hf3].
      replace 0x707F with (Z.lor 0x7F 0x7000) by reflexivity.
      rewrite Z.land_lor_distr_r, Hop, Hhi, Hf3. reflexivity.
  - intros x. f_equal.
    apply Z.bits_inj'. intros i Hi.
    rewrite Z.land_spec, Z.lor_spec, Z.land_spec, Z.ldiff_spec.
    destruct (Z.testbit 0x707F i), (Z.testbit insn i), (Z.testbit x i);
      reflexivity.
Qed.

(** C6 (not met by the code): the encoder is not a function of its
    arguments alone.  With the same [rd = 1], [rs1 = 2], [imm12 = 3] it
    faults where address [0x13] cannot be accessed, and otherwise returns
    after or-ing the three fields into the word at that address, so the
    final store depends on what that word held. *)
Theorem riscv_insn_addi_depends_on_store :
  riscv_insn_addi 64 1 2 3 ∅ = None /\
  riscv_insn_addi 64 1 2 3 {[ 0x13 := 0 ]} =
    Some (0x13, {[ 0x13 := 0x00310080 ]}) /\
  riscv_insn_addi 64 1 2 3 {[ 0x13 := 0xFFFFFFFF ]} =
    Some (0x13, {[ 0x13 := 0xFFFFFFFF ]}).
Proof. vm_compute. repeat split; reflexivity. Qed.



Section Claims.

Variable BITS_PER_LONG : Z.
Hypothesis long_width : BITS_PER_LONG = 32 \/ BITS_PER_LONG = 64.

Local Abbreviation B := BITS_PER_LONG.

(** The insert helpers read and write the pointed-to word only: on
    two stores that hold the same word at [p] they succeed with the same
    final word at [p]. *)
Lemma pointer_helpers_local (h1 h2 : gmap Z Z) p w v :
  h1 !! p = Some w -> h2 !! p = Some w -> is_u32 w ->
  forall f,
    In f [riscv_insert_imm12 B; riscv_insert_rd B; riscv_insert_rs1 B] ->
    exists w', f p v h1 = Some (tt, <[p := w']> h1) /\
               f p v h2 = Some (tt, <[p := w']> h2).
Proof.
  intros H1 H2 Hw f Hf. simpl in Hf.
  destruct Hf as [<- | [<- | [<- | []]]]; eexists; split.
  - apply riscv_insert_imm12_run; eassumption.
  - apply riscv_insert_imm12_run; eassumption.
  - apply riscv_insert_rd_run; eassumption.
  - apply riscv_insert_rd_run; eassumption.
  - apply riscv_insert_rs1_run; eassumption.
  - apply riscv_insert_rs1_run; eassumption.
Qed.

(** Every word the encoder returns has all three fields zero. *)
Lemma riscv_insn_addi_fields_zero rd rs1 imm12 (h h' : gmap Z Z) r :
  riscv_insn_addi B rd rs1 imm12 h = Some (r, h') ->
  riscv_extract_rd B r = 0 /\ riscv_extract_rs1 B r = 0 /\
  riscv_extract_imm12 B r = 0.
Proof.
  intros Hr. rewrite (riscv_insn_addi_result B rd rs1 imm12 h h' r Hr).
  destruct long_width as [-> | ->]; repeat split; reflexivity.
Qed.

(** C3: inserting [v] into an all-zero instruction word and extracting
    the same field gives [v] reduced to the field width, for each of
    imm12 ([v & 0xFFF]), rd and rs1 ([v & 0x1F]). *)
Theorem insert_zero_then_extract (h : gmap Z Z) p v :
  h !! p = Some 0 ->
  (exists w', riscv_insert_imm12 B p v h = Some (tt, <[p := w']> h) /\
              riscv_extract_imm12 B w' = Z.land v 0xFFF) /\
  (exists w', riscv_insert_rd B p v h = Some (tt, <[p := w']> h) /\
              riscv_extract_rd B w' = Z.land v 0x1F) /\
  (exists w', riscv_insert_rs1 B p v h = Some (tt, <[p := w']> h) /\
              riscv_extract_rs1 B w' = Z.land v 0x1F).
Proof.
  intros Hp. assert (H0 : is_u32 0) by (unfold is_u32; lia).
  repeat split; eexists; split.
  - apply riscv_insert_imm12_run; eassumption.
  - rewrite riscv_extract_imm12_get by exact long_width.
    rewrite get_merge by lia. apply Z.lor_0_l.
  - apply riscv_insert_rd_run; eassumption.
  - rewrite riscv_extract_rd_get by exact long_width.
    rewrite get_merge by lia. apply Z.lor_0_l.
  - apply riscv_insert_rs1_run; eassumption.
  - rewrite riscv_extract_rs1_get by exact long_width.
    rewrite get_merge by lia. apply Z.lor_0_l.
Qed.

(** C5: every extractor is total and its result fits the field:
    below [2^12] for imm12, below [2^5] for rd and rs1. *)
Theorem extract_in_range insn :
  0 <= riscv_extract_imm12 B insn < 2 ^ 12 /\
  0 <= riscv_extract_rd B insn < 2 ^ 5 /\
  0 <= riscv_extract_rs1 B insn < 2 ^ 5.
Proof.
  rewrite riscv_extract_imm12_get, riscv_extract_rd_get,
    riscv_extract_rs1_get by exact long_width.
  repeat split; apply get_range; lia.
Qed.


(** C10: an insert ors the reduced value into the field: afterwards the
    field holds (old field) | (v & mask).  On a word whose fields are
    all ones, inserting [0] leaves each field different from
    [0 & mask]. *)
Theorem insert_ors_field (h : gmap Z Z) p insn v :
  h !! p = Some insn -> is_u32 insn ->
  (exists w', riscv_insert_imm12 B p v h = Some (tt, <[p := w']> h) /\
     riscv_extract_imm12 B w' =
     Z.lor (riscv_extract_imm12 B insn) (Z.land v 0xFFF)) /\
  (exists w', riscv_insert_rd B p v h = Some (tt, <[p := w']> h) /\
     riscv_extract_rd B w' =
     Z.lor (riscv_extract_rd B insn) (Z.land v 0x1F)) /\
  (exists w', riscv_insert_rs1 B p v h = Some (tt, <[p := w']> h) /\
     riscv_extract_rs1 B w' =
     Z.lor (riscv_extract_rs1 B insn) (Z.land v 0x1F)) /\
  (exists w1 w2 w3,
      riscv_insert_imm12 B 0 0 {[ 0 := 0xFFFFFFFF ]} =
        Some (tt, {[ 0 := w1 ]}) /\
      riscv_extract_imm12 B w1 <> Z.land 0 0xFFF /\
      riscv_insert_rd B 0 0 {[ 0 := 0xFFFFFFFF ]} =
        Some (tt, {[ 0 := w2 ]}) /\
      riscv_extract_rd B w2 <> Z.land 0 0x1F /\
      riscv_insert_rs1 B 0 0 {[ 0 := 0xFFFFFFFF ]} =
        Some (tt, {[ 0 := w3 ]}) /\
      riscv_extract_rs1 B w3 <> Z.land 0 0x1F).
Proof.
  intros Hp Hw. split; [| split; [| split]].
  - eexists; split; [apply riscv_insert_imm12_run; eassumption |].
    rewrite !riscv_extract_imm12_get by exact long_width.
    apply get_merge; lia.
  - eexists; split; [apply riscv_insert_rd_run; eassumption |].
    rewrite !riscv_extract_rd_get by exact long_width.
    apply get_merge; lia.
  - eexists; split; [apply riscv_insert_rs1_run; eassumption |].
    rewrite !riscv_extract_rs1_get by exact long_width.
    apply get_merge; lia.
  - exists 0xFFFFFFFF, 0xFFFFFFFF, 0xFFFFFFFF.
    destruct long_width as [-> | ->]; vm_compute;
      repeat split; reflexivity || discriminate.
Qed.

End Claims.

(** ** The properties at concrete inputs (rv64, one word at address 8) *)

Lemma insert_zero_then_extract_witness :
  (64 = 32 \/ 64 = 64) /\
  ({[ 8 := 0 ]} : gmap Z Z) !! 8 = Some 0 /\
  exists w',
    riscv_insert_imm12 64 8 0x1ABC {[ 8 := 0 ]} =
      Some (tt, <[8 := w']> {[ 8 := 0 ]}) /\
    riscv_extract_imm12 64 w' = 0xABC.
Proof.
  assert (HB : 64 = 32 \/ 64 = 64) by (right; reflexivity).
  assert (Hp : ({[ 8 := 0 ]} : gmap Z Z) !! 8 = Some 0) by reflexivity.
  split; [exact HB |]. split; [exact Hp |].
  exact (proj1 (insert_zero_then_extract 64 HB {[ 8 := 0 ]} 8 0x1ABC Hp)).
Defined.

Lemma extract_in_range_witness :
  (64 = 32 \/ 64 = 64) /\
  0 <= riscv_extract_imm12 64 0xFFFFFFFF < 2 ^ 12 /\
  0 <= riscv_extract_rd 64 0xFFFFFFFF < 2 ^ 5 /\
  0 <= riscv_extract_rs1 64 0xFFFFFFFF < 2 ^ 5.
Proof.
  assert (HB : 64 = 32 \/ 64 = 64) by (right; reflexivity).
  split; [exact HB |].
  exact (extract_in_range 64 HB 0xFFFFFFFF).
Defined.


Lemma insert_ors_field_witness :
  (64 = 32 \/ 64 = 64) /\
  ({[ 8 := 0x00A00513 ]} : gmap Z Z) !! 8 = Some 0x00A00513 /\
  is_u32 0x00A00513 /\
  exists w',
    riscv_insert_imm12 64 8 0x5 {[ 8 := 0x00A00513 ]} =
      Some (tt, <[8 := w']> {[ 8 := 0x00A00513 ]}) /\
    riscv_extract_imm12 64 w' = Z.lor 0xA 0x5.
Proof.
  assert (HB : 64 = 32 \/ 64 = 64) by (right; reflexivity).
  assert (Hp : ({[ 8 := 0x00A00513 ]} : gmap Z Z) !! 8 = Some 0x00A00513)
    by reflexivity.
  assert (Hw : is_u32 0x00A00513) by (unfold is_u32; lia).
  split; [exact HB |]. split; [exact Hp |]. split; [exact Hw |].
  exact (proj1
    (insert_ors_field 64 HB {[ 8 := 0x00A00513 ]} 8 0x00A00513 0x5 Hp Hw)).
Defined.

(** ** Further laws of the field operations *)

Module FieldLaws.

Import Field FieldFacts.

Lemma testbit_get_any s n w i :
  0 <= s -> 0 <= n ->
  Z.testbit (get s n w) i = (0 <=? i) && Z.testbit w (i + s) && (i <? n).
Proof.
  intros Hs Hn. destruct (Z.leb_spec 0 i); simpl.
  - apply testbit_get; lia.
  - apply Z.testbit_neg_r. lia.
Qed.

Ltac field_bits :=
  repeat first
    [ rewrite testbit_get by lia
    | rewrite testbit_get_any by lia
    | rewrite testbit_merge by lia
    | rewrite testbit_ones_lt by lia
    | rewrite Z.testbit_ones by lia
    | rewrite Z.lor_spec
    | rewrite Z.land_spec
    | rewrite Z.bits_0
    | rewrite Z.add_simpl_r
    | rewrite Z.sub_add ].

Ltac field_cases :=
  split_cmp; simpl; try lia; split_bits; simpl; reflexivity || lia.

(** Comparisons that the context settles are replaced by their value. *)
Ltac decide_cmp :=
  repeat match goal with
         | |- context [?a <=? ?b] =>
             first [ replace (a <=? b) with true
                       by (symmetry; apply Z.leb_le; lia)
                   | replace (a <=? b) with false
                       by (symmetry; apply Z.leb_gt; lia) ]
         | |- context [?a <? ?b] =>
             first [ replace (a <? b) with true
                       by (symmetry; apply Z.ltb_lt; lia)
                   | replace (a <? b) with false
                       by (symmetry; apply Z.ltb_ge; lia) ]
         end.

Ltac settled := decide_cmp; simpl; split_bits; reflexivity.

Ltac by_bits :=
  apply Z.bits_inj'; intros ? ?; field_bits; field_cases.

Lemma testbit_small a n i :
  0 <= a < 2 ^ n -> 0 <= n <= i -> Z.testbit a i = false.
Proof.
  intros Ha Hi. rewrite <- (Z.mod_small a (2 ^ n)) by exact Ha.
  apply Z.mod_pow2_bits_high. exact Hi.
Qed.

Section OneField.

Variables s n : Z.
Hypothesis s_nonneg : 0 <= s.
Hypothesis n_nonneg : 0 <= n.

Lemma get_div_mod w : get s n w = (w / 2 ^ s) mod 2 ^ n.
Proof.
  unfold get. rewrite Z.land_ones, Z.shiftr_div_pow2 by lia. reflexivity.
Qed.

Lemma merge_get_id w : merge s n w (get s n w) = w.
Proof. by_bits. Qed.

Lemma merge_lor w v1 v2 :
  merge s n (merge s n w v1) v2 = merge s n w (Z.lor v1 v2).
Proof. by_bits. Qed.

Lemma merge_keeps_bits w v : Z.land (merge s n w v) w = w.
Proof. by_bits. Qed.

Lemma merge_land_ones w v : merge s n w (Z.land v (Z.ones n)) = merge s n w v.
Proof. by_bits. Qed.

End OneField.

Section TwoFields.

Variables s n s' n' : Z.
Hypothesis s_nonneg : 0 <= s.
Hypothesis n_nonneg : 0 <= n.
Hypothesis s'_nonneg : 0 <= s'.
Hypothesis n'_nonneg : 0 <= n'.
Hypothesis disjoint : s + n <= s' \/ s' + n' <= s.

Lemma get_merge_other w v : get s' n' (merge s n w v) = get s' n' w.
Proof. by_bits. Qed.

End TwoFields.

(** Merges commute, whatever the two fields. *)
Lemma merge_comm s n s' n' w a b :
  0 <= s -> 0 <= n -> 0 <= s' -> 0 <= n' ->
  merge s n (merge s' n' w b) a = merge s' n' (merge s n w a) b.
Proof. intros Hs Hn Hs' Hn'. by_bits. Qed.

(** The bits [riscv_is_addi] looks at are the opcode and funct3 fields. *)
Lemma land_opcode_funct3 w :
  Z.land w 0x707F = Z.lor (get 0 7 w) (Z.shiftl (get 12 3 w) 12).
Proof.
  replace 0x707F with (Z.lor (Z.ones 7) (Z.shiftl (Z.ones 3) 12))
    by reflexivity.
  apply Z.bits_inj'. intros i Hi.
  rewrite Z.land_spec, !Z.lor_spec, !testbit_shiftl_ge by lia.
  rewrite testbit_get, Z.add_0_r, testbit_ones_lt by lia.
  destruct (Z.leb_spec 12 i); simpl.
  - rewrite testbit_get, Z.sub_add, testbit_ones_lt by lia.
    field_cases.
  - rewrite !orb_false_r. reflexivity.
Qed.

(** An [addi] word is its opcode with its three fields merged in. *)
Lemma addi_word_from_fields w :
  is_u32 w -> Z.land w 0x707F = 0x13 ->
  merge 20 12 (merge 15 5 (merge 7 5 0x13 (get 7 5 w)) (get 15 5 w))
        (get 20 12 w) = w.
Proof.
  intros Hw Haddi. apply Z.bits_inj'. intros i Hi.
  assert (Hlow : Z.testbit (Z.land w 0x707F) i = Z.testbit 0x13 i)
    by (rewrite Haddi; reflexivity).
  rewrite land_opcode_funct3, Z.lor_spec, testbit_shiftl_ge in Hlow by lia.
  rewrite testbit_get, Z.add_0_r in Hlow by lia.
  assert (Hop : i < 7 -> Z.testbit w i = Z.testbit 0x13 i).
  { intros Hlt. rewrite <- Hlow.
    replace (i <? 7) with true by (symmetry; apply Z.ltb_lt; lia).
    replace (12 <=? i) with false by (symmetry; apply Z.leb_gt; lia).
    rewrite andb_true_r, orb_false_r. reflexivity. }
  assert (Hopc : 7 <= i -> Z.testbit 0x13 i = false)
    by (intros; apply (testbit_small 0x13 7 i); lia).
  assert (Hf3 : 12 <= i < 15 -> Z.testbit w i = false).
  { intros Hr. rewrite Hopc in Hlow by lia.
    rewrite testbit_get, Z.sub_add in Hlow by lia.
    replace (i <? 7) with false in Hlow by (symmetry; apply Z.ltb_ge; lia).
    replace (12 <=? i) with true in Hlow by (symmetry; apply Z.leb_le; lia).
    replace (i - 12 <? 3) with true in Hlow by (symmetry; apply Z.ltb_lt; lia).
    rewrite andb_false_r, !andb_true_r in Hlow. exact Hlow. }
  assert (Hhigh : 32 <= i -> Z.testbit w i = false)
    by (apply is_u32_testbit; exact Hw).
  field_bits.
  destruct (Z.lt_ge_cases i 7) as [H7 | H7].
  - rewrite (Hop H7). settled.
  - rewrite (Hopc H7). destruct (Z.lt_ge_cases i 12) as [H12 | H12].
    + settled.
    + destruct (Z.lt_ge_cases i 15) as [H15 | H15].
      * rewrite Hf3 by lia. settled.
      * destruct (Z.lt_ge_cases i 20) as [H20 | H20]; [settled |].
        destruct (Z.lt_ge_cases i 32) as [H32 | H32]; [settled |].
        rewrite (Hhigh H32). settled.
Qed.

End FieldLaws.

(** ** Further properties of the header *)

Import FieldLaws.

Section Extras.

Variable BITS_PER_LONG : Z.
Hypothesis long_width : BITS_PER_LONG = 32 \/ BITS_PER_LONG = 64.

Local Abbreviation B := BITS_PER_LONG.

(** The value handed to an insert is first reduced to the field width. *)
Lemma insert_operand_reduced s n v :
  0 < n -> n <= 32 ->
  shl_ulong B (RV_X (Z.land v (Z.ones n)) 0 (GENMASK B (n - 1) 0)) s =
  shl_ulong B (RV_X v 0 (GENMASK B (n - 1) 0)) s.
Proof.
  intros Hn Hn32. rewrite (GENMASK_low B long_width n Hn Hn32).
  unfold RV_X. rewrite !Z.shiftr_0_r, <- Z.land_assoc, Z.land_diag.
  reflexivity.
Qed.

(** The three inserts in a row, on one pointed-to word. *)
Lemma three_inserts_run (h : gmap Z Z) p w rd rs1 imm12 :
  h !! p = Some w -> is_u32 w ->
  (riscv_insert_rd B p rd ;; riscv_insert_rs1 B p rs1 ;;
   riscv_insert_imm12 B p imm12) h =
  Some (tt, <[p := merge 20 12 (merge 15 5 (merge 7 5 w rd) rs1) imm12]> h).
Proof.
  intros Hp Hw.
  assert (H1 : is_u32 (merge 7 5 w rd)) by (apply is_u32_merge; lia || exact Hw).
  assert (H2 : is_u32 (merge 15 5 (merge 7 5 w rd) rs1))
    by (apply is_u32_merge; lia || exact H1).
  rewrite (bind_run _ _ h tt _
             (riscv_insert_rd_run B long_width h p w rd Hp Hw)).
  rewrite (bind_run _ _ _ tt _
             (riscv_insert_rs1_run B long_width _ p _ rs1
                (lookup_insert_eq _ _ _) H1)).
  rewrite (riscv_insert_imm12_run B long_width _ p _ imm12
             (lookup_insert_eq _ _ _) H2).
  rewrite !insert_insert_eq. reflexivity.
Qed.

(** [riscv_is_addi] in terms of the opcode and funct3 fields. *)
Lemma riscv_is_addi_fields w :
  riscv_is_addi w =
  (Z.lor (get 0 7 w) (Z.shiftl (get 12 3 w) 12) =? 0x13).
Proof. unfold riscv_is_addi. rewrite <- land_opcode_funct3. reflexivity. Qed.

(** X1: each extractor is a division by the weight of the field's lowest
    bit followed by a remainder by the field's size; on a [u32] the
    remainder is idle for imm12, the topmost field. *)
Theorem extract_div_mod insn :
  riscv_extract_imm12 B insn = (insn / 2 ^ 20) mod 2 ^ 12 /\
  riscv_extract_rd B insn = (insn / 2 ^ 7) mod 2 ^ 5 /\
  riscv_extract_rs1 B insn = (insn / 2 ^ 15) mod 2 ^ 5 /\
  (is_u32 insn -> riscv_extract_imm12 B insn = insn / 2 ^ 20).
Proof.
  rewrite riscv_extract_imm12_get, riscv_extract_rd_get,
    riscv_extract_rs1_get by exact long_width.
  rewrite !get_div_mod by lia. repeat split.
  intros [Hlo Hhi]. apply Z.mod_small. split.
  - apply Z.div_pos; lia.
  - apply Z.div_lt_upper_bound; lia.
Qed.

(** X3: two inserts into one field accumulate: inserting [v1] and then
    [v2] is inserting [v1 | v2]. *)
Theorem insert_accumulates (h : gmap Z Z) p insn v1 v2 :
  h !! p = Some insn -> is_u32 insn ->
  (exists w',
      riscv_insert_imm12 B p (Z.lor v1 v2) h = Some (tt, <[p := w']> h) /\
      (riscv_insert_imm12 B p v1 ;; riscv_insert_imm12 B p v2) h =
      Some (tt, <[p := w']> h)) /\
  (exists w',
      riscv_insert_rd B p (Z.lor v1 v2) h = Some (tt, <[p := w']> h) /\
      (riscv_insert_rd B p v1 ;; riscv_insert_rd B p v2) h =
      Some (tt, <[p := w']> h)) /\
  (exists w',
      riscv_insert_rs1 B p (Z.lor v1 v2) h = Some (tt, <[p := w']> h) /\
      (riscv_insert_rs1 B p v1 ;; riscv_insert_rs1 B p v2) h =
      Some (tt, <[p := w']> h)).
Proof.
  intros Hp Hw. repeat split; eexists; split.
  - apply riscv_insert_imm12_run; eassumption.
  - rewrite (bind_run _ _ h tt _
               (riscv_insert_imm12_run B long_width h p insn v1 Hp Hw)).
    rewrite (riscv_insert_imm12_run B long_width _ p (merge 20 12 insn v1) v2).
    + rewrite insert_insert_eq, merge_lor by lia. reflexivity.
    + apply lookup_insert_eq.
    + apply is_u32_merge; lia || exact Hw.
  - apply riscv_insert_rd_run; eassumption.
  - rewrite (bind_run _ _ h tt _
               (riscv_insert_rd_run B long_width h p insn v1 Hp Hw)).
    rewrite (riscv_insert_rd_run B long_width _ p (merge 7 5 insn v1) v2).
    + rewrite insert_insert_eq, merge_lor by lia. reflexivity.
    + apply lookup_insert_eq.
    + apply is_u32_merge; lia || exact Hw.
  - apply riscv_insert_rs1_run; eassumption.
  - rewrite (bind_run _ _ h tt _
               (riscv_insert_rs1_run B long_width h p insn v1 Hp Hw)).
    rewrite (riscv_insert_rs1_run B long_width _ p (merge 15 5 insn v1) v2).
    + rewrite insert_insert_eq, merge_lor by lia. reflexivity.
    + apply lookup_insert_eq.
    + apply is_u32_merge; lia || exact Hw.
Qed.

(** What a write to the field at [s], [n] leaves alone, seen through the
    extractors and the recogniser. *)
Lemma merge_keeps_others s n w v :
  0 <= s -> 0 <= n -> 7 <= s -> s + n <= 12 \/ 15 <= s ->
  riscv_is_addi (merge s n w v) = riscv_is_addi w.
Proof.
  intros Hs Hn H7 Hd. rewrite !riscv_is_addi_fields.
  rewrite (get_merge_other s n 0 7), (get_merge_other s n 12 3) by lia.
  reflexivity.
Qed.

(** X7: decoding an [addi] word and encoding the three fields again, by
    the three inserts on a word that holds the [addi] opcode [0x13],
    gives the word back. *)
Theorem addi_decode_encode (h : gmap Z Z) p insn :
  is_u32 insn -> riscv_is_addi insn = true -> h !! p = Some 0x13 ->
  (riscv_insert_rd B p (riscv_extract_rd B insn) ;;
   riscv_insert_rs1 B p (riscv_extract_rs1 B insn) ;;
   riscv_insert_imm12 B p (riscv_extract_imm12 B insn)) h =
  Some (tt, <[p := insn]> h).
Proof.
  intros Hw Haddi Hp.
  rewrite (three_inserts_run h p 0x13) by (exact Hp || (unfold is_u32; lia)).
  rewrite riscv_extract_imm12_get, riscv_extract_rd_get,
    riscv_extract_rs1_get by exact long_width.
  rewrite addi_word_from_fields; [reflexivity | exact Hw |].
  apply Z.eqb_eq. exact Haddi.
Qed.

(** X8: on a [u32] word whose three fields are zero, such as the bare
    opcode [0x13], the three inserts through a pointer to it encode the
    instruction: every field decodes to its reduced input and
    [riscv_is_addi] answers as on the initial word. *)
Theorem inserts_encode (h : gmap Z Z) p w0 rd rs1 imm12 :
  h !! p = Some w0 -> is_u32 w0 ->
  riscv_extract_rd B w0 = 0 -> riscv_extract_rs1 B w0 = 0 ->
  riscv_extract_imm12 B w0 = 0 ->
  exists w,
    (riscv_insert_rd B p rd ;; riscv_insert_rs1 B p rs1 ;;
     riscv_insert_imm12 B p imm12) h = Some (tt, <[p := w]> h) /\
    riscv_extract_rd B w = Z.land rd 0x1F /\
    riscv_extract_rs1 B w = Z.land rs1 0x1F /\
    riscv_extract_imm12 B w = Z.land imm12 0xFFF /\
    riscv_is_addi w = riscv_is_addi w0.
Proof.
  intros Hp Hw Hrd Hrs1 Himm.
  rewrite riscv_extract_rd_get in Hrd by exact long_width.
  rewrite riscv_extract_rs1_get in Hrs1 by exact long_width.
  rewrite riscv_extract_imm12_get in Himm by exact long_width.
  eexists. split; [apply three_inserts_run; eassumption |].
  rewrite riscv_extract_imm12_get, riscv_extract_rd_get,
    riscv_extract_rs1_get by exact long_width.
  rewrite !merge_keeps_others by lia. repeat split.
  - rewrite (get_merge_other 20 12 7 5), (get_merge_other 15 5 7 5) by lia.
    rewrite get_merge, Hrd by lia. apply Z.lor_0_l.
  - rewrite (get_merge_other 20 12 15 5) by lia.
    rewrite get_merge, (get_merge_other 7 5 15 5), Hrs1 by lia.
    apply Z.lor_0_l.
  - rewrite get_merge by lia.
    rewrite (get_merge_other 15 5 20 12), (get_merge_other 7 5 20 12) by lia.
    rewrite Himm. apply Z.lor_0_l.
Qed.

(** X10: an insert never clears a bit: every bit set in the pointed-to
    word before the call is set after it. *)
Theorem insert_keeps_set_bits (h : gmap Z Z) p insn v :
  h !! p = Some insn -> is_u32 insn ->
  (exists w', riscv_insert_imm12 B p v h = Some (tt, <[p := w']> h) /\
     forall i, Z.testbit insn i = true -> Z.testbit w' i = true) /\
  (exists w', riscv_insert_rd B p v h = Some (tt, <[p := w']> h) /\
     forall i, Z.testbit insn i = true -> Z.testbit w' i = true) /\
  (exists w', riscv_insert_rs1 B p v h = Some (tt, <[p := w']> h) /\
     forall i, Z.testbit insn i = true -> Z.testbit w' i = true).
Proof.
  intros Hp Hw.
  assert (Hkeep : forall s n i, 0 <= s -> 0 <= n ->
            Z.testbit insn i = true -> Z.testbit (merge s n insn v) i = true).
  { intros s n i Hs Hn Hi.
    rewrite <- (merge_keeps_bits s n Hs Hn insn v) in Hi.
    rewrite Z.land_spec in Hi. apply andb_true_iff in Hi. apply Hi. }
  repeat split; eexists; split.
  - apply riscv_insert_imm12_run; eassumption.
  - intros i Hi. apply Hkeep; lia || exact Hi.
  - apply riscv_insert_rd_run; eassumption.
  - intros i Hi. apply Hkeep; lia || exact Hi.
  - apply riscv_insert_rs1_run; eassumption.
  - intros i Hi. apply Hkeep; lia || exact Hi.
Qed.

(** X2: inserting into a field the value just extracted from it changes
    nothing. *)
Theorem insert_own_field (h : gmap Z Z) p insn :
  h !! p = Some insn -> is_u32 insn ->
  riscv_insert_imm12 B p (riscv_extract_imm12 B insn) h = Some (tt, h) /\
  riscv_insert_rd B p (riscv_extract_rd B insn) h = Some (tt, h) /\
  riscv_insert_rs1 B p (riscv_extract_rs1 B insn) h = Some (tt, h).
Proof.
  intros Hp Hw.
  rewrite riscv_extract_imm12_get, riscv_extract_rd_get,
    riscv_extract_rs1_get by exact long_width.
  rewrite (riscv_insert_imm12_run B long_width h p insn _ Hp Hw).
  rewrite (riscv_insert_rd_run B long_width h p insn _ Hp Hw).
  rewrite (riscv_insert_rs1_run B long_width h p insn _ Hp Hw).
  rewrite !merge_get_id by lia.
  rewrite (insert_id h p insn Hp). repeat split.
Qed.

(** X4: an insert uses only the low bits of the value: a call with [v]
    behaves, on every store, as the call with [v] reduced to the field
    width. *)
Theorem insert_value_reduced (h : gmap Z Z) p v :
  riscv_insert_imm12 B p v h = riscv_insert_imm12 B p (Z.land v 0xFFF) h /\
  riscv_insert_rd B p v h = riscv_insert_rd B p (Z.land v 0x1F) h /\
  riscv_insert_rs1 B p v h = riscv_insert_rs1 B p (Z.land v 0x1F) h.
Proof.
  unfold riscv_insert_imm12, riscv_insert_rd, riscv_insert_rs1.
  pose proof (insert_operand_reduced 20 12 v ltac:(lia) ltac:(lia)) as E12.
  pose proof (insert_operand_reduced 7 5 v ltac:(lia) ltac:(lia)) as Erd.
  pose proof (insert_operand_reduced 15 5 v ltac:(lia) ltac:(lia)) as Ers1.
  change (12 - 1) with 11 in E12. change (Z.ones 12) with 0xFFF in E12.
  change (5 - 1) with 4 in Erd, Ers1.
  change (Z.ones 5) with 0x1F in Erd, Ers1.
  rewrite E12, Erd, Ers1. repeat split.
Qed.

(** X5: inserts into two different fields commute. *)
Theorem inserts_commute (h : gmap Z Z) p insn a b :
  h !! p = Some insn -> is_u32 insn ->
  (exists w',
      (riscv_insert_rd B p a ;; riscv_insert_rs1 B p b) h =
      Some (tt, <[p := w']> h) /\
      (riscv_insert_rs1 B p b ;; riscv_insert_rd B p a) h =
      Some (tt, <[p := w']> h)) /\
  (exists w',
      (riscv_insert_rd B p a ;; riscv_insert_imm12 B p b) h =
      Some (tt, <[p := w']> h) /\
      (riscv_insert_imm12 B p b ;; riscv_insert_rd B p a) h =
      Some (tt, <[p := w']> h)) /\
  (exists w',
      (riscv_insert_rs1 B p a ;; riscv_insert_imm12 B p b) h =
      Some (tt, <[p := w']> h) /\
      (riscv_insert_imm12 B p b ;; riscv_insert_rs1 B p a) h =
      Some (tt, <[p := w']> h)).
Proof.
  intros Hp Hw.
  assert (Hm : forall s n v, 0 <= s -> 0 <= n -> s + n <= 32 ->
                 is_u32 (merge s n insn v))
    by (intros; apply is_u32_merge; lia || exact Hw).
  repeat split; eexists; split.
  - rewrite (bind_run _ _ h tt _
               (riscv_insert_rd_run B long_width h p insn a Hp Hw)).
    rewrite (riscv_insert_rs1_run B long_width _ p _ b
               (lookup_insert_eq _ _ _)) by (apply Hm; lia).
    rewrite insert_insert_eq. reflexivity.
  - rewrite (bind_run _ _ h tt _
               (riscv_insert_rs1_run B long_width h p insn b Hp Hw)).
    rewrite (riscv_insert_rd_run B long_width _ p _ a
               (lookup_insert_eq _ _ _)) by (apply Hm; lia).
    rewrite insert_insert_eq, (merge_comm 7 5 15 5) by lia. reflexivity.
  - rewrite (bind_run _ _ h tt _
               (riscv_insert_rd_run B long_width h p insn a Hp Hw)).
    rewrite (riscv_insert_imm12_run B long_width _ p _ b
               (lookup_insert_eq _ _ _)) by (apply Hm; lia).
    rewrite insert_insert_eq. reflexivity.
  - rewrite (bind_run _ _ h tt _
               (riscv_insert_imm12_run B long_width h p insn b Hp Hw)).
    rewrite (riscv_insert_rd_run B long_width _ p _ a
               (lookup_insert_eq _ _ _)) by (apply Hm; lia).
    rewrite insert_insert_eq, (merge_comm 7 5 20 12) by lia. reflexivity.
  - rewrite (bind_run _ _ h tt _
               (riscv_insert_rs1_run B long_width h p insn a Hp Hw)).
    rewrite (riscv_insert_imm12_run B long_width _ p _ b
               (lookup_insert_eq _ _ _)) by (apply Hm; lia).
    rewrite insert_insert_eq. reflexivity.
  - rewrite (bind_run _ _ h tt _
               (riscv_insert_imm12_run B long_width h p insn b Hp Hw)).
    rewrite (riscv_insert_rs1_run B long_width _ p _ a
               (lookup_insert_eq _ _ _)) by (apply Hm; lia).
    rewrite insert_insert_eq, (merge_comm 15 5 20 12) by lia. reflexivity.
Qed.

(** X6: an insert into one field leaves the other two fields, as the
    extractors read them, and the answer of [riscv_is_addi] as they
    were. *)
Theorem insert_keeps_other_fields (h : gmap Z Z) p insn v :
  h !! p = Some insn -> is_u32 insn ->
  (exists w', riscv_insert_rd B p v h = Some (tt, <[p := w']> h) /\
     riscv_extract_rs1 B w' = riscv_extract_rs1 B insn /\
     riscv_extract_imm12 B w' = riscv_extract_imm12 B insn /\
     riscv_is_addi w' = riscv_is_addi insn) /\
  (exists w', riscv_insert_rs1 B p v h = Some (tt, <[p := w']> h) /\
     riscv_extract_rd B w' = riscv_extract_rd B insn /\
     riscv_extract_imm12 B w' = riscv_extract_imm12 B insn /\
     riscv_is_addi w' = riscv_is_addi insn) /\
  (exists w', riscv_insert_imm12 B p v h = Some (tt, <[p := w']> h) /\
     riscv_extract_rd B w' = riscv_extract_rd B insn /\
     riscv_extract_rs1 B w' = riscv_extract_rs1 B insn /\
     riscv_is_addi w' = riscv_is_addi insn).
Proof.
  intros Hp Hw.
  pose proof (riscv_extract_rd_get B long_width) as Erd.
  pose proof (riscv_extract_rs1_get B long_width) as Ers1.
  pose proof (riscv_extract_imm12_get B long_width) as Eimm.
  split; [| split]; eexists.
  - split; [exact (riscv_insert_rd_run B long_width h p insn v Hp Hw) |].
    rewrite !Ers1, !Eimm, merge_keeps_others by lia.
    rewrite (get_merge_other 7 5 15 5), (get_merge_other 7 5 20 12) by lia.
    repeat split.
  - split; [exact (riscv_insert_rs1_run B long_width h p insn v Hp Hw) |].
    rewrite !Erd, !Eimm, merge_keeps_others by lia.
    rewrite (get_merge_other 15 5 7 5), (get_merge_other 15 5 20 12) by lia.
    repeat split.
  - split; [exact (riscv_insert_imm12_run B long_width h p insn v Hp Hw) |].
    rewrite !Erd, !Ers1, merge_keeps_others by lia.
    rewrite (get_merge_other 20 12 7 5), (get_merge_other 20 12 15 5) by lia.
    repeat split.
Qed.

End Extras.

(** ** The further properties at concrete inputs (rv64) *)

Lemma extract_div_mod_witness :
  (64 = 32 \/ 64 = 64) /\ is_u32 0x00A00513 /\
  riscv_extract_rd 64 0x00A00513 = (0x00A00513 / 2 ^ 7) mod 2 ^ 5 /\
  riscv_extract_imm12 64 0x00A00513 = 0x00A00513 / 2 ^ 20.
Proof.
  assert (HB : 64 = 32 \/ 64 = 64) by (right; reflexivity).
  assert (Hw : is_u32 0x00A00513) by (unfold is_u32; lia).
  pose proof (extract_div_mod 64 HB 0x00A00513) as (_ & Hrd & _ & Himm).
  split; [exact HB |]. split; [exact Hw |]. split; [exact Hrd |].
  exact (Himm Hw).
Defined.

Lemma insert_accumulates_witness :
  (64 = 32 \/ 64 = 64) /\
  ({[ 8 := 0x13 ]} : gmap Z Z) !! 8 = Some 0x13 /\ is_u32 0x13 /\
  exists w',
    riscv_insert_rs1 64 8 (Z.lor 0x3 0x14) {[ 8 := 0x13 ]} =
      Some (tt, <[8 := w']> {[ 8 := 0x13 ]}) /\
    (riscv_insert_rs1 64 8 0x3 ;; riscv_insert_rs1 64 8 0x14)
      {[ 8 := 0x13 ]} = Some (tt, <[8 := w']> {[ 8 := 0x13 ]}).
Proof.
  assert (HB : 64 = 32 \/ 64 = 64) by (right; reflexivity).
  assert (Hp : ({[ 8 := 0x13 ]} : gmap Z Z) !! 8 = Some 0x13) by reflexivity.
  assert (Hw : is_u32 0x13) by (unfold is_u32; lia).
  split; [exact HB |]. split; [exact Hp |]. split; [exact Hw |].
  exact (proj2 (proj2
    (insert_accumulates 64 HB {[ 8 := 0x13 ]} 8 0x13 0x3 0x14 Hp Hw))).
Defined.

Lemma addi_decode_encode_witness :
  (64 = 32 \/ 64 = 64) /\ is_u32 0xFFF58593 /\
  riscv_is_addi 0xFFF58593 = true /\
  ({[ 8 := 0x13 ]} : gmap Z Z) !! 8 = Some 0x13 /\
  (riscv_insert_rd 64 8 (riscv_extract_rd 64 0xFFF58593) ;;
   riscv_insert_rs1 64 8 (riscv_extract_rs1 64 0xFFF58593) ;;
   riscv_insert_imm12 64 8 (riscv_extract_imm12 64 0xFFF58593))
    {[ 8 := 0x13 ]} = Some (tt, <[8 := 0xFFF58593]> {[ 8 := 0x13 ]}).
Proof.
  assert (HB : 64 = 32 \/ 64 = 64) by (right; reflexivity).
  assert (Hp : ({[ 8 := 0x13 ]} : gmap Z Z) !! 8 = Some 0x13) by reflexivity.
  assert (Hw : is_u32 0xFFF58593) by (unfold is_u32; lia).
  assert (Ha : riscv_is_addi 0xFFF58593 = true) by reflexivity.
  split; [exact HB |]. split; [exact Hw |]. split; [exact Ha |].
  split; [exact Hp |].
  exact (addi_decode_encode 64 HB {[ 8 := 0x13 ]} 8 0xFFF58593 Hw Ha Hp).
Defined.

Lemma inserts_encode_witness :
  (64 = 32 \/ 64 = 64) /\
  ({[ 8 := 0x13 ]} : gmap Z Z) !! 8 = Some 0x13 /\ is_u32 0x13 /\
  riscv_extract_rd 64 0x13 = 0 /\ riscv_extract_rs1 64 0x13 = 0 /\
  riscv_extract_imm12 64 0x13 = 0 /\
  exists w,
    (riscv_insert_rd 64 8 1 ;; riscv_insert_rs1 64 8 2 ;;
     riscv_insert_imm12 64 8 3) {[ 8 := 0x13 ]} =
      Some (tt, <[8 := w]> {[ 8 := 0x13 ]}) /\
    riscv_extract_rd 64 w = Z.land 1 0x1F /\
    riscv_extract_rs1 64 w = Z.land 2 0x1F /\
    riscv_extract_imm12 64 w = Z.land 3 0xFFF /\
    riscv_is_addi w = riscv_is_addi 0x13.
Proof.
  assert (HB : 64 = 32 \/ 64 = 64) by (right; reflexivity).
  assert (Hp : ({[ 8 := 0x13 ]} : gmap Z Z) !! 8 = Some 0x13) by reflexivity.
  assert (Hw : is_u32 0x13) by (unfold is_u32; lia).
  split; [exact HB |]. split; [exact Hp |]. split; [exact Hw |].
  split; [reflexivity |]. split; [reflexivity |]. split; [reflexivity |].
  exact (inserts_encode 64 HB {[ 8 := 0x13 ]} 8 0x13 1 2 3 Hp Hw
           eq_refl eq_refl eq_refl).
Defined.

Lemma insert_keeps_set_bits_witness :
  (64 = 32 \/ 64 = 64) /\
  ({[ 8 := 0x00A00513 ]} : gmap Z Z) !! 8 = Some 0x00A00513 /\
  is_u32 0x00A00513 /\
  exists w',
    riscv_insert_imm12 64 8 0x5 {[ 8 := 0x00A00513 ]} =
      Some (tt, <[8 := w']> {[ 8 := 0x00A00513 ]}) /\
    forall i, Z.testbit 0x00A00513 i = true -> Z.testbit w' i = true.
Proof.
  assert (HB : 64 = 32 \/ 64 = 64) by (right; reflexivity).
  assert (Hp : ({[ 8 := 0x00A00513 ]} : gmap Z Z) !! 8 = Some 0x00A00513)
    by reflexivity.
  assert (Hw : is_u32 0x00A00513) by (unfold is_u32; lia).
  split; [exact HB |]. split; [exact Hp |]. split; [exact Hw |].
  exact (proj1
    (insert_keeps_set_bits 64 HB {[ 8 := 0x00A00513 ]} 8 0x00A00513 0x5
       Hp Hw)).
Defined.

Lemma insert_own_field_witness :
  (64 = 32 \/ 64 = 64) /\
  ({[ 8 := 0x00A00513 ]} : gmap Z Z) !! 8 = Some 0x00A00513 /\
  is_u32 0x00A00513 /\
  riscv_insert_rd 64 8 (riscv_extract_rd 64 0x00A00513)
    {[ 8 := 0x00A00513 ]} = Some (tt, {[ 8 := 0x00A00513 ]}).
Proof.
  assert (HB : 64 = 32 \/ 64 = 64) by (right; reflexivity).
  assert (Hp : ({[ 8 := 0x00A00513 ]} : gmap Z Z) !! 8 = Some 0x00A00513)
    by reflexivity.
  assert (Hw : is_u32 0x00A00513) by (unfold is_u32; lia).
  split; [exact HB |]. split; [exact Hp |]. split; [exact Hw |].
  exact (proj1 (proj2
    (insert_own_field 64 HB {[ 8 := 0x00A00513 ]} 8 0x00A00513 Hp Hw))).
Defined.

Lemma insert_value_reduced_witness :
  (64 = 32 \/ 64 = 64) /\
  riscv_insert_imm12 64 8 0xFFFFF801 {[ 8 := 0x13 ]} =
  riscv_insert_imm12 64 8 (Z.land 0xFFFFF801 0xFFF) {[ 8 := 0x13 ]}.
Proof.
  assert (HB : 64 = 32 \/ 64 = 64) by (right; reflexivity).
  split; [exact HB |].
  exact (proj1 (insert_value_reduced 64 HB {[ 8 := 0x13 ]} 8 0xFFFFF801)).
Defined.

Lemma inserts_commute_witness :
  (64 = 32 \/ 64 = 64) /\
  ({[ 8 := 0x13 ]} : gmap Z Z) !! 8 = Some 0x13 /\ is_u32 0x13 /\
  exists w',
    (riscv_insert_rd 64 8 1 ;; riscv_insert_imm12 64 8 0x7FF)
      {[ 8 := 0x13 ]} = Some (tt, <[8 := w']> {[ 8 := 0x13 ]}) /\
    (riscv_insert_imm12 64 8 0x7FF ;; riscv_insert_rd 64 8 1)
      {[ 8 := 0x13 ]} = Some (tt, <[8 := w']> {[ 8 := 0x13 ]}).
Proof.
  assert (HB : 64 = 32 \/ 64 = 64) by (right; reflexivity).
  assert (Hp : ({[ 8 := 0x13 ]} : gmap Z Z) !! 8 = Some 0x13) by reflexivity.
  assert (Hw : is_u32 0x13) by (unfold is_u32; lia).
  split; [exact HB |]. split; [exact Hp |]. split; [exact Hw |].
  exact (proj1 (proj2
    (inserts_commute 64 HB {[ 8 := 0x13 ]} 8 0x13 1 0x7FF Hp Hw))).
Defined.

Lemma insert_keeps_other_fields_witness :
  (64 = 32 \/ 64 = 64) /\
  ({[ 8 := 0x00A00513 ]} : gmap Z Z) !! 8 = Some 0x00A00513 /\
  is_u32 0x00A00513 /\
  exists w',
    riscv_insert_rd 64 8 0x1F {[ 8 := 0x00A00513 ]} =
      Some (tt, <[8 := w']> {[ 8 := 0x00A00513 ]}) /\
    riscv_extract_rs1 64 w' = riscv_extract_rs1 64 0x00A00513 /\
    riscv_extract_imm12 64 w' = riscv_extract_imm12 64 0x00A00513 /\
    riscv_is_addi w' = riscv_is_addi 0x00A00513.
Proof.
  assert (HB : 64 = 32 \/ 64 = 64) by (right; reflexivity).
  assert (Hp : ({[ 8 := 0x00A00513 ]} : gmap Z Z) !! 8 = Some 0x00A00513)
    by reflexivity.
  assert (Hw : is_u32 0x00A00513) by (unfold is_u32; lia).
  split; [exact HB |]. split; [exact Hp |]. split; [exact Hw |].
  exact (proj1
    (insert_keeps_other_fields 64 HB {[ 8 := 0x00A00513 ]} 8 0x00A00513
       0x1F Hp Hw)).
Defined.
